(** * Client-side callbacks of [bokeh.models.callbacks]

    A shallow embedding of [src/bokeh/models/callbacks.py]: the three callback
    models [OpenURL], [CustomJS] and [SetValue], the two validation checks of
    [SetValue], and the properties the specification states about them.

    Python objects are mutable and shared, so a method body is a computation
    over a frame made of [self] and the store of the objects [self] refers
    to; a computation either returns a value or raises.

    The second part embeds the data preparation of
    [examples/models/trail.py]: the distance column, the slope classes and
    colours of [prep_data], and the patches of [altitude_profile].  Slopes
    are binary64 numbers and are compared as such. *)

From stdpp Require Import base option functions list gmap strings pretty.
From Stdlib Require Floats.

Set Default Proof Using "Type".

(** ** Exceptions and outcomes *)

(** [AttributeError] is what a failed attribute resolution raises; it carries
    the name that was not found.  [EmptyCode] is the construction-time error
    kind of the specification (section 7). *)
Inductive Exception : Type :=
| AttributeError (name : string)
| EmptyCode.

Inductive Outcome (A : Type) : Type :=
| Return (a : A)
| Raise (e : Exception).
Arguments Return {A} a.
Arguments Raise {A} e.

Definition returned {A} (o : Outcome A) : bool :=
  match o with Return _ => true | Raise _ => false end.

(** ** The property system, as far as [callbacks.py] uses it *)

(** Objects are held by reference. *)
Definition Ref : Type := positive.

(** [descriptor.property.is_valid(value)]: a property type decides which
    values it accepts. *)
Record Property (Value : Type) : Type := mkProperty {
  is_valid : Value -> bool
}.
Arguments mkProperty {Value} _.
Arguments is_valid {Value} _ _.

Record PropertyDescriptor (Value : Type) : Type := mkDescriptor {
  name : string;
  property : Property Value
}.
Arguments mkDescriptor {Value} _ _.
Arguments name {Value} _.
Arguments property {Value} _.

(** An object with properties: the descriptors its class declares, by name,
    and the values its properties currently hold. *)
Record HasProps (Value : Type) : Type := mkHasProps {
  descriptors : gmap string (PropertyDescriptor Value);
  property_values : gmap string Value
}.
Arguments mkHasProps {Value} _ _.
Arguments descriptors {Value} _.
Arguments property_values {Value} _.

(** The conversions an f-string applies: [{v!r}] is [repr(v)] and [{o}] is
    [str(o)].  Both belong to the Python runtime and to the classes of the
    objects involved, so they are an interface here. *)
Class Builtins (Value : Type) : Type := {
  repr : Value -> string;
  str : Ref -> HasProps Value -> string
}.

(** ** The callback models *)

(** [url = String("http://")], [same_tab = Bool(False)]. *)
Record OpenURL : Type := mkOpenURL {
  url : string;
  same_tab : bool
}.

(** [Either(Auto, Bool)]: the string ["auto"] or a boolean. *)
Inductive AutoOrBool : Type :=
| Auto
| IsBool (b : bool).

(** [args = Dict(String, AnyRef)], [code = Required(String)],
    [module = Either(Auto, Bool)]. *)
Record CustomJS (Value : Type) : Type := mkCustomJS {
  args : gmap string Value;
  code : string;
  module : AutoOrBool
}.
Arguments mkCustomJS {Value} _ _ _.
Arguments args {Value} _.
Arguments code {Value} _.
Arguments module {Value} _.

(** [obj = Required(Instance(HasProps))], [attr = Required(String)],
    [value = Required(Any)]. *)
Record SetValue (Value : Type) : Type := mkSetValue {
  obj : Ref;
  attr : string;
  value : Value
}.
Arguments mkSetValue {Value} _ _ _.
Arguments obj {Value} _.
Arguments attr {Value} _.
Arguments value {Value} _.

(** ** Frames and computations *)

(** What a method of a model of class [Self] can read and write: the model
    itself and every object reachable by reference. *)
Record Frame (Value Self : Type) : Type := mkFrame {
  self : Self;
  objects : Ref -> HasProps Value
}.
Arguments mkFrame {Value Self} _ _.
Arguments self {Value Self} _.
Arguments objects {Value Self} _.

Definition Py (Value Self A : Type) : Type :=
  Frame Value Self -> Outcome A * Frame Value Self.

#[export] Instance Py_ret {Value Self} : MRet (Py Value Self) :=
  fun A (a : A) fr => (Return a, fr).

#[export] Instance Py_bind {Value Self} : MBind (Py Value Self) :=
  fun A B (k : A -> Py Value Self B) (m : Py Value Self A) fr =>
    match m fr with
    | (Return a, fr') => k a fr'
    | (Raise e, fr') => (Raise e, fr')
    end.

Definition raise {Value Self A} (e : Exception) : Py Value Self A :=
  fun fr => (Raise e, fr).

Definition gets {Value Self A} (f : Frame Value Self -> A) : Py Value Self A :=
  fun fr => (Return (f fr), fr).

Definition modify {Value Self} (f : Frame Value Self -> Frame Value Self)
  : Py Value Self unit :=
  fun fr => (Return tt, f fr).

Section Models.
Context {Value : Type} `{!Builtins Value}.

(** Attribute reads on [self]. *)
Definition self_obj : Py Value (SetValue Value) Ref := gets (fun fr => obj (self fr)).
Definition self_attr : Py Value (SetValue Value) string := gets (fun fr => attr (self fr)).
Definition self_value : Py Value (SetValue Value) Value := gets (fun fr => value (self fr)).

(** [str(o)] of the object behind a reference. *)
Definition str_of {Self} (o : Ref) : Py Value Self string :=
  gets (fun fr => str o (objects fr o)).

(** Modelled from the spec: [HasProps.lookup], the schema-lookup capability
    of section 6, [lookup(attributeName) -> PropertyDescriptor | not-found].
    Its definition is in [bokeh.core.has_props], which [callbacks.py] only
    imports.  With [raises=False] a missing name yields [None]; without it
    (the default) the not-found failure is raised to the caller. *)
Definition lookup {Self} (o : Ref) (attribute : string) (raises : bool)
  : Py Value Self (option (PropertyDescriptor Value)) :=
  found ← gets (fun fr => descriptors (objects fr o) !! attribute);
  match found with
  | Some descriptor => mret (Some descriptor)
  | None => if raises then raise (AttributeError attribute) else mret None
  end.

(** Truth value of what [lookup] returns: [None] is false, a descriptor
    object is true. *)
Definition truthy (found : option (PropertyDescriptor Value)) : bool :=
  match found with Some _ => true | None => false end.

(** *** [SetValue]: the two checks

    Each attribute read of the source is a read of the frame, in the order
    Python evaluates them.  In the second check [lookup] is called without
    [raises=False], so it never hands back [None]; reading [.property] of
    [None] would raise [AttributeError] as well. *)

Definition _check_if_an_attribute_is_a_property_of_a_model
  : Py Value (SetValue Value) (option string) :=
  o ← self_obj;
  a ← self_attr;
  found ← lookup o a false;
  if truthy found then mret None
  else
    a' ← self_attr;
    o' ← self_obj;
    s ← str_of o';
    mret (Some (a' +:+ " is not a property of " +:+ s)).

Definition _check_if_provided_a_valid_value
  : Py Value (SetValue Value) (option string) :=
  o ← self_obj;
  a ← self_attr;
  found ← lookup o a true;
  match found with
  | None => raise (AttributeError "property")
  | Some descriptor =>
      v ← self_value;
      if is_valid (property descriptor) v then mret None
      else
        v' ← self_value;
        o' ← self_obj;
        s ← str_of o';
        a' ← self_attr;
        mret (Some (repr v' +:+ " is not a valid value for " +:+ s +:+ "." +:+ a'))
  end.

(** *** The validation pass *)

(** The two error codes [callbacks.py] imports from
    [bokeh.core.validation.errors]. *)
Inductive ErrorCode : Type :=
| NOT_A_PROPERTY_OF
| INVALID_PROPERTY_VALUE.

#[export] Instance ErrorCode_eq_dec : EqDecision ErrorCode.
Proof. solve_decision. Defined.

Record ValidationIssue : Type := mkIssue {
  issue_code : ErrorCode;
  issue_extra : string
}.

(** Modelled from the spec: the [@error(CODE)] decorator of
    [bokeh.core.validation], which [callbacks.py] only imports.  Section 4.3:
    a check that finds nothing emits nothing, a check that returns a message
    emits one error of the decorator's kind carrying that message. *)
Definition error {Self} (c : ErrorCode) (func : Py Value Self (option string))
  : Py Value Self (list ValidationIssue) :=
  extra ← func;
  match extra with
  | None => mret []
  | Some text => mret [mkIssue c text]
  end.

(** Modelled from the spec: the external validator pass (sections 4.3 and 7),
    which is not part of [callbacks.py].  It runs every check a model
    declares and collects the errors into one list for its caller. *)
Fixpoint check_integrity {Self} (validators : list (Py Value Self (list ValidationIssue)))
  : Py Value Self (list ValidationIssue) :=
  match validators with
  | [] => mret []
  | func :: rest =>
      issues ← func;
      more ← check_integrity rest;
      mret (issues ++ more)
  end.

(** The checks each class declares, in attribute-name order. *)
Definition OpenURL_validators : list (Py Value OpenURL (list ValidationIssue)) := [].

Definition CustomJS_validators
  : list (Py Value (CustomJS Value) (list ValidationIssue)) := [].

Definition SetValue_validators
  : list (Py Value (SetValue Value) (list ValidationIssue)) :=
  [ error NOT_A_PROPERTY_OF _check_if_an_attribute_is_a_property_of_a_model;
    error INVALID_PROPERTY_VALUE _check_if_provided_a_valid_value ].

Definition errors_of (c : ErrorCode) (issues : list ValidationIssue)
  : list ValidationIssue :=
  filter (fun i => issue_code i = c) issues.

(** *** Construction *)

(** [OpenURL(url=..., same_tab=...)]: a keyword that is not given takes the default of
    the property's declaration. *)
Definition OpenURL_init (kw_url : option string) (kw_same_tab : option bool) : OpenURL :=
  {| url := default "http://" kw_url;
     same_tab := default false kw_same_tab |}.

(** Modelled from the spec: what the initializer does with a [Required]
    code payload.  [CustomJS.__init__] hands its keywords to the initializer
    of the property system, which is not part of [callbacks.py].  Section 3:
    the code must be non-empty, and empty or missing code is a
    construction-time error, of kind [EmptyCode] (section 7). *)
Definition required_code (kw_code : option string) : Outcome string :=
  match kw_code with
  | None => Raise EmptyCode
  | Some c => if decide (c = "") then Raise EmptyCode else Return c
  end.

(** [CustomJS(args=..., code=..., module=...)]: [args] defaults to [{}] and [module] to ["auto"]. *)
Definition CustomJS_init (kw_args : option (gmap string Value))
    (kw_code : option string) (kw_module : option AutoOrBool)
  : Outcome (CustomJS Value) :=
  match required_code kw_code with
  | Raise e => Raise e
  | Return c =>
      Return {| args := default ∅ kw_args;
                code := c;
                module := default Auto kw_module |}
  end.

(** *** Dispatch *)

(** Modelled from the spec: the schema's setter, [set(name, value)] of
    section 9, which belongs to the property system.  It stores the value
    under the attribute's name in the object behind the reference and leaves
    the declared descriptors alone. *)
Definition setattr {Self} (o : Ref) (a : string) (v : Value) : Py Value Self unit :=
  modify (fun fr =>
    let target := objects fr o in
    mkFrame (self fr)
      (<[o := mkHasProps (descriptors target) (<[a := v]> (property_values target))]>
         (objects fr))).

(** Modelled from the spec: dispatch of a [SetValue], which the browser
    runtime performs and [callbacks.py] does not contain.  Section 4.3: assign
    [value] to [target.attribute], and never unless validation most recently
    succeeded; validation is run again here, at dispatch time. *)
Definition dispatch : Py Value (SetValue Value) unit :=
  issues ← check_integrity SetValue_validators;
  match issues with
  | [] =>
      o ← self_obj;
      a ← self_attr;
      v ← self_value;
      setattr o a v
  | _ :: _ => mret tt
  end.

(** *** What the properties below speak about *)

(** The object [self.obj] refers to. *)
Definition target_of (fr : Frame Value (SetValue Value)) : HasProps Value :=
  objects fr (obj (self fr)).

(** What [self.obj.lookup(self.attr, raises=False)] yields in a frame. *)
Definition lookup_attr (fr : Frame Value (SetValue Value))
  : Outcome (option (PropertyDescriptor Value)) :=
  (lookup (obj (self fr)) (attr (self fr)) false fr).1.

(** The two messages, as the f-strings build them. *)
Definition not_a_property_text (fr : Frame Value (SetValue Value)) : string :=
  attr (self fr) +:+ " is not a property of " +:+ str (obj (self fr)) (target_of fr).

Definition invalid_value_text (fr : Frame Value (SetValue Value)) : string :=
  repr (value (self fr)) +:+ " is not a valid value for "
    +:+ str (obj (self fr)) (target_of fr) +:+ "." +:+ attr (self fr).

(** A computation that leaves the frame as it found it, whether it returns
    or raises. *)
Definition read_only {Self A} (m : Py Value Self A) : Prop :=
  forall fr, (m fr).2 = fr.

End Models.

(** ** A concrete object graph

    The scenario of section 8 of the specification: a target that exposes
    the properties [x], an integer, and [y], a string. *)
Module Demo.

Inductive value : Type :=
| Int (n : Z)
| Str (s : string).

Definition Int_property : Property value :=
  mkProperty (fun v => match v with Int _ => true | Str _ => false end).

Definition String_property : Property value :=
  mkProperty (fun v => match v with Str _ => true | Int _ => false end).

(** [repr] of an integer and of a string that needs no escaping. *)
#[global] Instance builtins : Builtins value := {|
  repr := fun v => match v with Int n => pretty n | Str s => "'" +:+ s +:+ "'" end;
  str := fun r _ => "Target(id=" +:+ pretty (Zpos r) +:+ ")"
|}.

Definition target : HasProps value :=
  mkHasProps
    {[ "x" := mkDescriptor "x" Int_property;
       "y" := mkDescriptor "y" String_property ]}
    {[ "x" := Int 0; "y" := Str "a" ]}.

Definition store : Ref -> HasProps value := fun _ => target.

(** The same graph after the application has assigned [y]. *)
Definition store' : Ref -> HasProps value :=
  fun _ => mkHasProps (descriptors target) {[ "x" := Int 0; "y" := Str "b" ]}.

Definition set_x_5 : SetValue value := mkSetValue 1%positive "x" (Int 5).
Definition set_z_5 : SetValue value := mkSetValue 1%positive "z" (Int 5).
Definition set_x_bad : SetValue value := mkSetValue 1%positive "x" (Str "bad").

End Demo.

(** ** The trail example: [prep_data] and [altitude_profile] *)

Module Trail.
Import PrimFloat.

(** The exceptions the script can meet: a list index out of range, a
    missing label of a series, and [min] of an empty sequence. *)
Inductive Error : Type :=
| IndexError
| KeyError
| ValueError.

Inductive Try (A : Type) : Type :=
| Ok (a : A)
| Fail (e : Error).
Arguments Ok {A} a.
Arguments Fail {A} e.

#[global] Instance Try_ret : MRet Try := fun A a => Ok a.
#[global] Instance Try_bind : MBind Try := fun A B k m =>
  match m with Ok a => k a | Fail e => Fail e end.


Definition drop_last {A} (l : list A) : list A := take (length l - 1) l.

Definition range (n : nat) : list nat := seq 0 n.

Fixpoint comprehension {A B} (f : A -> Try B) (l : list A) : Try (list B) :=
  match l with
  | [] => Ok []
  | a :: l' => b ← f a; bs ← comprehension f l'; mret (b :: bs)
  end.



(** *** [prep_data]

    [distance] works with [sin], [cos] and [atan2] and is a parameter.  Lines
    39 to 42: the points, the distance between consecutive points, and the
    cumulated distance with a leading 0. *)
Section PrepData.
Context {Coord : Type} (distance : Coord * Coord -> Coord * Coord -> float).


End PrepData.

(** Lines 45 to 49: [slope[np.where(mask)] = c] writes [c] wherever the
    mask, computed from the array as it is at that moment, holds; the five
    assignments run one after the other on the same array. *)
Definition assign_where (mask : float -> bool) (c : float) (a : list float) : list float :=
  (fun x => if mask x then c else x) <$> a.

Definition bin_slopes (slope : list float) : list float :=
  let slope := assign_where (fun x => x <? 4)%float 0%float slope in
  let slope := assign_where (fun x => (4 <=? x) && (x <? 6))%float 1%float slope in
  let slope := assign_where (fun x => (6 <=? x) && (x <? 10))%float 2%float slope in
  let slope := assign_where (fun x => (10 <=? x) && (x <? 15))%float 3%float slope in
  let slope := assign_where (fun x => 15 <=? x)%float 4%float slope in
  slope.

(** What the five assignments do to one entry. *)
Definition bin_entry (x : float) : float :=
  let x := if (x <? 4)%float then 0%float else x in
  let x := if ((4 <=? x) && (x <? 6))%float then 1%float else x in
  let x := if ((6 <=? x) && (x <? 10))%float then 2%float else x in
  let x := if ((10 <=? x) && (x <? 15))%float then 3%float else x in
  let x := if (15 <=? x)%float then 4%float else x in
  x.

(** Lines 52 to 57: [colors] starts as an object array of [None], as long
    as the (filtered) slope array; each assignment writes a name where the
    slope equals a class. *)
Definition assign_color (mask : float -> bool) (c : string)
    (slope : list float) (colors : list (option string)) : list (option string) :=
  zip_with (fun x old => if mask x then Some c else old) slope colors.

Definition color_slopes (slope : list float) : list (option string) :=
  let colors := replicate (length slope) None in
  let colors := assign_color (fun x => x =? 0)%float "green" slope colors in
  let colors := assign_color (fun x => x =? 1)%float "yellow" slope colors in
  let colors := assign_color (fun x => x =? 2)%float "pink" slope colors in
  let colors := assign_color (fun x => x =? 3)%float "orange" slope colors in
  let colors := assign_color (fun x => x =? 4)%float "red" slope colors in
  colors.

(** What the five colour assignments give for one entry of the filtered
    array. *)
Definition color_entry (x : float) : option string :=
  let c := None in
  let c := if (x =? 0)%float then Some "green" else c in
  let c := if (x =? 1)%float then Some "yellow" else c in
  let c := if (x =? 2)%float then Some "pink" else c in
  let c := if (x =? 3)%float then Some "orange" else c in
  let c := if (x =? 4)%float then Some "red" else c in
  c.

(** Line 58: [[*colors, None]]. *)
Definition colors_column (slope : list float) : list (option string) :=
  color_slopes slope ++ [None].

(** *** [altitude_profile]

    Lines 107 to 114.  [X] and [Y] are columns of the data frame, read by
    row number; [lt] is [<] on their values.  [min] keeps the first item and
    replaces it by every later item that is strictly smaller. *)
Section AltitudeProfile.
Context {A : Type} (lt : A -> A -> bool).

Definition series_getitem (s : list A) (i : nat) : Try A :=
  match s !! i with Some x => Ok x | None => Fail KeyError end.

Definition py_min (s : list A) : Try A :=
  match s with
  | [] => Fail ValueError
  | x :: s' => Ok (foldl (fun m item => if lt item m then item else m) x s')
  end.

Definition patches_xs (X : list A) : Try (list (list A)) :=
  comprehension
    (fun i =>
       a ← series_getitem X i; b ← series_getitem X (i + 1);
       c ← series_getitem X (i + 1); d ← series_getitem X i;
       mret [a; b; c; d])
    (range (length (drop_last X))).

Definition patches_ys (y0 : A) (Y : list A) : Try (list (list A)) :=
  comprehension
    (fun i =>
       c ← series_getitem Y (i + 1); d ← series_getitem Y i;
       mret [y0; y0; c; d])
    (range (length (drop_last Y))).

Record Patches : Type := mkPatches {
  xs : list (list A);
  ys : list (list A);
  color : list (option string)
}.

Definition patches_source (X Y : list A) (colors : list (option string)) : Try Patches :=
  y0 ← py_min Y;
  xs ← patches_xs X;
  ys ← patches_ys y0 Y;
  mret (mkPatches xs ys (drop_last colors)).
End AltitudeProfile.

End Trail.

(** ** Computations that only read *)

Section ReadOnly.
Context {Value Self : Type}.

Lemma read_only_ret {A} (a : A) : read_only (mret a : Py Value Self A).
Proof. by intros fr. Qed.

Lemma read_only_raise {A} (e : Exception) : read_only (raise e : Py Value Self A).
Proof. by intros fr. Qed.

Lemma read_only_gets {A} (f : Frame Value Self -> A) : read_only (gets f).
Proof. by intros fr. Qed.

Lemma read_only_bind {A B} (m : Py Value Self A) (k : A -> Py Value Self B) :
  read_only m -> (forall a, read_only (k a)) -> read_only (m ≫= k).
Proof.
  intros Hm Hk fr. unfold mbind, Py_bind.
  specialize (Hm fr). destruct (m fr) as [[a|e] fr']; simpl in *; subst fr'.
  - apply Hk.
  - done.
Qed.

Lemma read_only_lookup (o : Ref) (a : string) (raises : bool) :
  read_only (lookup (Value:=Value) (Self:=Self) o a raises).
Proof.
  unfold lookup. apply read_only_bind; [apply read_only_gets|].
  intros [d|]; [apply read_only_ret|].
  destruct raises; [apply read_only_raise | apply read_only_ret].
Qed.

Lemma read_only_error (c : ErrorCode) (func : Py Value Self (option string)) :
  read_only func -> read_only (error c func).
Proof.
  intros Hf. unfold error. apply read_only_bind; [done|].
  intros [text|]; apply read_only_ret.
Qed.

Lemma read_only_check_integrity
    (validators : list (Py Value Self (list ValidationIssue))) :
  Forall read_only validators -> read_only (check_integrity validators).
Proof.
  induction 1 as [|func rest Hfunc _ IH]; simpl.
  - apply read_only_ret.
  - apply read_only_bind; [done|]. intros issues.
    apply read_only_bind; [done|]. intros more. apply read_only_ret.
Qed.

End ReadOnly.

Create HintDb read_only.

#[local] Hint Resolve read_only_ret read_only_raise read_only_gets
  read_only_lookup read_only_error : read_only.

Ltac read_only_steps :=
  repeat first
    [ apply read_only_bind; [solve [unfold self_obj, self_attr, self_value, str_of; auto with read_only] | intros ?]
    | solve [auto with read_only]
    | match goal with
      | |- read_only (if ?b then _ else _) => destruct b
      | |- read_only (match ?x with Some _ => _ | None => _ end) => destruct x
      end ].

Section Properties.
Context {Value : Type} `{!Builtins Value}.
Implicit Types fr : Frame Value (SetValue Value).

(** *** The checks of [SetValue], run in a frame *)

Lemma lookup_attr_eq fr :
  lookup_attr fr = Return (descriptors (target_of fr) !! attr (self fr)).
Proof.
  unfold lookup_attr, lookup, target_of, gets, mbind, Py_bind; simpl.
  by destruct (descriptors _ !! _).
Qed.

Lemma lookup_attr_None fr :
  lookup_attr fr = Return None <-> descriptors (target_of fr) !! attr (self fr) = None.
Proof. rewrite lookup_attr_eq. split; congruence. Qed.

Lemma lookup_attr_Some fr d :
  lookup_attr fr = Return (Some d) <-> descriptors (target_of fr) !! attr (self fr) = Some d.
Proof. rewrite lookup_attr_eq. split; congruence. Qed.

Lemma run_check_attribute fr :
  _check_if_an_attribute_is_a_property_of_a_model fr =
  (Return (match descriptors (target_of fr) !! attr (self fr) with
           | Some _ => None
           | None => Some (not_a_property_text fr)
           end), fr).
Proof.
  unfold _check_if_an_attribute_is_a_property_of_a_model, not_a_property_text,
    lookup, self_obj, self_attr, str_of, target_of, gets, mbind, Py_bind; simpl.
  by destruct (descriptors _ !! _).
Qed.

Lemma run_check_value fr :
  _check_if_provided_a_valid_value fr =
  (match descriptors (target_of fr) !! attr (self fr) with
   | None => Raise (AttributeError (attr (self fr)))
   | Some d =>
       Return (if is_valid (property d) (value (self fr)) then None
               else Some (invalid_value_text fr))
   end, fr).
Proof.
  unfold _check_if_provided_a_valid_value, invalid_value_text,
    lookup, self_obj, self_attr, self_value, str_of, target_of, gets, raise,
    mbind, Py_bind; simpl.
  destruct (descriptors _ !! _) as [d|]; simpl; [|done].
  by destruct (is_valid _ _).
Qed.

Lemma run_validation fr :
  check_integrity SetValue_validators fr =
  (match descriptors (target_of fr) !! attr (self fr) with
   | None => Raise (AttributeError (attr (self fr)))
   | Some d =>
       Return (if is_valid (property d) (value (self fr)) then []
               else [mkIssue INVALID_PROPERTY_VALUE (invalid_value_text fr)])
   end, fr).
Proof.
  unfold SetValue_validators, check_integrity, error, mbind, Py_bind.
  rewrite run_check_attribute.
  destruct (descriptors _ !! _) as [d|] eqn:Hd; simpl.
  - rewrite run_check_value, Hd. by destruct (is_valid _ _).
  - by rewrite run_check_value, Hd.
Qed.

Lemma checks_read_only :
  read_only (_check_if_an_attribute_is_a_property_of_a_model (Value:=Value)) /\
  read_only (_check_if_provided_a_valid_value (Value:=Value)).
Proof.
  split.
  - unfold _check_if_an_attribute_is_a_property_of_a_model. read_only_steps.
  - unfold _check_if_provided_a_valid_value. read_only_steps.
Qed.

Lemma run_dispatch fr d :
  descriptors (target_of fr) !! attr (self fr) = Some d ->
  is_valid (property d) (value (self fr)) = true ->
  dispatch fr =
  (Return tt,
   mkFrame (self fr)
     (<[obj (self fr) :=
          mkHasProps (descriptors (target_of fr))
            (<[attr (self fr) := value (self fr)]> (property_values (target_of fr)))]>
        (objects fr))).
Proof.
  intros Hd Hv. unfold dispatch, mbind, Py_bind.
  rewrite run_validation, Hd, Hv. reflexivity.
Qed.

(** *** The claims *)

(** C1, as the code behaves.  The claim is that a [SetValue] whose attribute
    the target's schema does not know (its [lookup] with [raises=False]
    yields nothing) validates to exactly one [NOT_A_PROPERTY_OF] error and no
    [INVALID_PROPERTY_VALUE] error.  The first check does emit that one
    error, with the attribute name and the target's identity in its text;
    the second check, however, raises [AttributeError] instead of emitting
    nothing, so the validation pass raises and reports no list of errors. *)
Theorem missing_attribute_aborts_validation fr :
  lookup_attr fr = Return None ->
  error NOT_A_PROPERTY_OF _check_if_an_attribute_is_a_property_of_a_model fr =
    (Return [mkIssue NOT_A_PROPERTY_OF (not_a_property_text fr)], fr) /\
  error INVALID_PROPERTY_VALUE _check_if_provided_a_valid_value fr =
    (Raise (AttributeError (attr (self fr))), fr) /\
  check_integrity SetValue_validators fr =
    (Raise (AttributeError (attr (self fr))), fr).
Proof.
  intros Hnone%lookup_attr_None. split_and!.
  - unfold error, mbind, Py_bind. by rewrite run_check_attribute, Hnone.
  - unfold error, mbind, Py_bind. by rewrite run_check_value, Hnone.
  - by rewrite run_validation, Hnone.
Qed.

(** C2.  When the attribute exists on the target's schema and the value
    fails [descriptor.property.is_valid], validation returns exactly one
    error: it is an [INVALID_PROPERTY_VALUE] error whose text is built from
    the [repr] of the value, the [str] of the target and the attribute name,
    and there is no [NOT_A_PROPERTY_OF] error.  The frame is left as it
    was. *)
Theorem invalid_value_yields_one_error fr d :
  lookup_attr fr = Return (Some d) ->
  is_valid (property d) (value (self fr)) = false ->
  let issues := [mkIssue INVALID_PROPERTY_VALUE (invalid_value_text fr)] in
  check_integrity SetValue_validators fr = (Return issues, fr) /\
  length (errors_of INVALID_PROPERTY_VALUE issues) = 1 /\
  length (errors_of NOT_A_PROPERTY_OF issues) = 0 /\
  invalid_value_text fr =
    repr (value (self fr)) +:+ " is not a valid value for "
      +:+ str (obj (self fr)) (target_of fr) +:+ "." +:+ attr (self fr).
Proof.
  intros Hsome%lookup_attr_Some Hbad issues. split_and!.
  - by rewrite run_validation, Hsome, Hbad.
  - reflexivity.
  - reflexivity.
  - reflexivity.
Qed.

(** C3.  When the attribute resolves against the target's schema and the
    value passes that property's validity check, validation returns no error
    at all, and dispatch then assigns the value to the target's attribute:
    afterwards the target holds [value] under [attr], its schema is the
    same, the directive is the same, and no other object has changed. *)
Theorem valid_assignment_is_dispatched fr d :
  lookup_attr fr = Return (Some d) ->
  is_valid (property d) (value (self fr)) = true ->
  check_integrity SetValue_validators fr = (Return [], fr) /\
  exists fr',
    dispatch fr = (Return tt, fr') /\
    property_values (target_of fr') !! attr (self fr) = Some (value (self fr)) /\
    descriptors (target_of fr') = descriptors (target_of fr) /\
    self fr' = self fr /\
    forall r, r <> obj (self fr) -> objects fr' r = objects fr r.
Proof.
  intros Hsome%lookup_attr_Some Hok. split.
  - by rewrite run_validation, Hsome, Hok.
  - eexists. split; [by apply run_dispatch with d|].
    unfold target_of; simpl. rewrite fn_lookup_insert; simpl.
    split_and!; [by rewrite lookup_insert_eq | done | done |].
    intros r Hr. by rewrite fn_lookup_insert_ne.
Qed.

(** C4.  Constructing a [CustomJS] without a code payload, or with the empty
    string as code, fails with [EmptyCode]; with any non-empty code string
    it succeeds, whatever is given for [args] (nothing, the empty mapping or
    any other mapping) and for [module]. *)
Theorem CustomJS_code_is_required
    (kw_args : option (gmap string Value)) (kw_module : option AutoOrBool) :
  CustomJS_init kw_args None kw_module = Raise EmptyCode /\
  CustomJS_init kw_args (Some "") kw_module = Raise EmptyCode /\
  forall c : string, c <> "" ->
    CustomJS_init kw_args (Some c) kw_module =
    Return {| args := default ∅ kw_args; code := c; module := default Auto kw_module |}.
Proof.
  split_and!; [done | done |].
  intros c Hc. unfold CustomJS_init, required_code. by rewrite decide_False.
Qed.

(** C5.  The second check is not total.  When the attribute is not a
    property of the target, [_check_if_provided_a_valid_value] neither
    returns [None] nor an error message: the not-found failure of its
    [lookup] propagates as [AttributeError].  It returns exactly when the
    attribute exists on the target's schema. *)
Theorem value_check_total_iff_attribute_exists fr :
  (lookup_attr fr = Return None ->
   (_check_if_provided_a_valid_value fr).1 = Raise (AttributeError (attr (self fr)))) /\
  (returned (_check_if_provided_a_valid_value fr).1 = true <->
   exists d, lookup_attr fr = Return (Some d)).
Proof.
  rewrite run_check_value, lookup_attr_eq. simpl.
  destruct (descriptors _ !! _) as [d|]; simpl.
  - split; [intros; congruence|]. split; eauto.
  - split; [done|]. split; [done|]. intros [d Hd]. congruence.
Qed.

(** C6.  [OpenURL()] with no arguments has [url] equal to ["http://"] and
    [same_tab] equal to [False]. *)
Theorem OpenURL_defaults :
  url (OpenURL_init None None) = "http://" /\
  same_tab (OpenURL_init None None) = false.
Proof. split; reflexivity. Qed.

(** C7.  A [CustomJS] constructed from a code payload alone, with neither
    [args] nor [module] given, has the empty mapping as [args] and ["auto"]
    as [module]. *)
Theorem CustomJS_defaults (c : string) :
  c <> "" ->
  exists js : CustomJS Value,
    CustomJS_init None (Some c) None = Return js /\
    args js = ∅ /\ module js = Auto /\ code js = c.
Proof.
  intros Hc. eexists. split.
  - unfold CustomJS_init, required_code. by rewrite decide_False.
  - done.
Qed.

(** C8.  [OpenURL] declares no validation check, so for every [OpenURL]
    (its [url] a string, its [same_tab] a boolean) in every object graph
    the validation pass returns no error and changes nothing. *)
Theorem OpenURL_validation_is_empty (o : OpenURL) (objs : Ref -> HasProps Value) :
  OpenURL_validators (Value:=Value) = [] /\
  check_integrity OpenURL_validators (mkFrame o objs) = (Return [], mkFrame o objs).
Proof. split; reflexivity. Qed.

(** C9.  Validation of a [SetValue] is deterministic and depends only on
    the directive and on its target's schema and identity: two frames with
    the same directive whose targets declare the same descriptors and print
    the same give the same outcome, errors and texts included; and running
    validation a second time, in the frame the first run leaves behind,
    gives the outcome of the first run. *)
Theorem validation_is_deterministic fr fr' :
  self fr' = self fr ->
  descriptors (target_of fr') = descriptors (target_of fr) ->
  str (obj (self fr')) (target_of fr') = str (obj (self fr)) (target_of fr) ->
  (check_integrity SetValue_validators fr').1 =
    (check_integrity SetValue_validators fr).1 /\
  (check_integrity SetValue_validators (check_integrity SetValue_validators fr).2).1 =
    (check_integrity SetValue_validators fr).1.
Proof.
  intros Hself Hdesc Hstr. split.
  - rewrite !run_validation. simpl. unfold invalid_value_text.
    by rewrite Hdesc, Hstr, Hself.
  - by rewrite !run_validation.
Qed.

(** C10.  Neither check of [SetValue] changes anything: after
    [_check_if_an_attribute_is_a_property_of_a_model] and after
    [_check_if_provided_a_valid_value], whether the check returned [None],
    returned a message or raised, the frame is the one it started in, so
    the directive's [obj], [attr] and [value] and every property of every
    object, the target included, are what they were. *)
Theorem checks_do_not_mutate fr :
  (_check_if_an_attribute_is_a_property_of_a_model fr).2 = fr /\
  (_check_if_provided_a_valid_value fr).2 = fr /\
  (check_integrity SetValue_validators fr).2 = fr.
Proof.
  destruct checks_read_only as [H1 H2]. split_and!.
  - apply H1.
  - apply H2.
  - apply read_only_check_integrity.
    repeat constructor; by apply read_only_error.
Qed.

End Properties.

(** ** The claims on the concrete object graph *)

Lemma missing_attribute_aborts_validation_witness :
  let fr := mkFrame Demo.set_z_5 Demo.store in
  lookup_attr fr = Return None /\
  check_integrity SetValue_validators fr = (Raise (AttributeError "z"), fr).
Proof.
  intros fr. split; [reflexivity|].
  apply (missing_attribute_aborts_validation fr). reflexivity.
Defined.

Lemma invalid_value_yields_one_error_witness :
  let fr := mkFrame Demo.set_x_bad Demo.store in
  check_integrity SetValue_validators fr =
  (Return [mkIssue INVALID_PROPERTY_VALUE "'bad' is not a valid value for Target(id=1).x"], fr).
Proof.
  intros fr.
  destruct (invalid_value_yields_one_error fr (mkDescriptor "x" Demo.Int_property))
    as [Hrun _]; [reflexivity | reflexivity | exact Hrun].
Defined.

Lemma valid_assignment_is_dispatched_witness :
  let fr := mkFrame Demo.set_x_5 Demo.store in
  check_integrity SetValue_validators fr = (Return [], fr) /\
  exists fr',
    dispatch fr = (Return tt, fr') /\
    property_values (target_of fr') !! "x" = Some (Demo.Int 5).
Proof.
  intros fr.
  destruct (valid_assignment_is_dispatched fr (mkDescriptor "x" Demo.Int_property))
    as [Hv (fr' & Hd & Hx & _)]; [reflexivity | reflexivity |].
  split; [exact Hv|]. exists fr'. split; [exact Hd | exact Hx].
Defined.

Lemma CustomJS_code_is_required_witness :
  CustomJS_init (Value:=Demo.value) (Some ∅) (Some "return 1") None =
  Return {| args := ∅; code := "return 1"; module := Auto |}.
Proof.
  destruct (CustomJS_code_is_required (Value:=Demo.value) (Some ∅) None)
    as (_ & _ & Hok).
  apply (Hok "return 1"). discriminate.
Defined.

Lemma value_check_total_iff_attribute_exists_witness :
  (_check_if_provided_a_valid_value (mkFrame Demo.set_z_5 Demo.store)).1 =
    Raise (AttributeError "z") /\
  returned (_check_if_provided_a_valid_value (mkFrame Demo.set_x_bad Demo.store)).1 = true.
Proof.
  split.
  - apply (value_check_total_iff_attribute_exists (mkFrame Demo.set_z_5 Demo.store)).
    reflexivity.
  - apply (value_check_total_iff_attribute_exists (mkFrame Demo.set_x_bad Demo.store)).
    exists (mkDescriptor "x" Demo.Int_property). reflexivity.
Defined.

Lemma CustomJS_defaults_witness :
  exists js : CustomJS Demo.value,
    CustomJS_init None (Some "console.log(cb_obj)") None = Return js /\
    args js = ∅ /\ module js = Auto /\ code js = "console.log(cb_obj)".
Proof. apply (CustomJS_defaults "console.log(cb_obj)"). discriminate. Defined.

Lemma validation_is_deterministic_witness :
  let fr := mkFrame Demo.set_x_bad Demo.store in
  let fr' := mkFrame Demo.set_x_bad Demo.store' in
  (check_integrity SetValue_validators fr').1 = (check_integrity SetValue_validators fr).1 /\
  (check_integrity SetValue_validators (check_integrity SetValue_validators fr).2).1 =
    (check_integrity SetValue_validators fr).1.
Proof.
  intros fr fr'. apply (validation_is_deterministic fr fr'); reflexivity.
Defined.

(** ** More on the validation of [SetValue] *)

Section Validation.
Context {Value : Type} `{!Builtins Value}.
Implicit Types fr : Frame Value (SetValue Value).

(** The first check always returns, and never raises: [None] exactly when
    the attribute is a property of the target, and otherwise the message
    naming the attribute and the target. *)
Theorem attribute_check_always_returns fr :
  exists r,
    _check_if_an_attribute_is_a_property_of_a_model fr = (Return r, fr) /\
    (r = None <-> exists d, lookup_attr fr = Return (Some d)) /\
    (r <> None -> r = Some (not_a_property_text fr)).
Proof.
  eexists. split; [apply run_check_attribute|].
  rewrite lookup_attr_eq.
  destruct (descriptors _ !! _) as [d|]; split.
  - split; eauto.
  - done.
  - split; [done|]. intros [d Hd]. congruence.
  - done.
Qed.

(** Whenever the validation pass of a [SetValue] returns, the attribute is a
    property of the target, the list holds at most one issue and none of
    kind [NOT_A_PROPERTY_OF]: on every input where the first check has
    something to report the second one raises, so that error never reaches
    the caller of the pass. *)
Theorem validation_never_reports_missing_attribute fr issues fr' :
  check_integrity SetValue_validators fr = (Return issues, fr') ->
  errors_of NOT_A_PROPERTY_OF issues = [] /\
  length issues <= 1 /\
  (exists d, lookup_attr fr = Return (Some d)) /\
  fr' = fr.
Proof.
  rewrite run_validation, lookup_attr_eq.
  destruct (descriptors _ !! _) as [d|]; [|discriminate].
  intros [= <- <-]. split_and!; [| |by eauto|done];
    destruct (is_valid _ _); simpl; done || lia.
Qed.

(** The outcome of the pass does not depend on which of the two checks runs
    first: in either order it raises the same [AttributeError] when the
    attribute is missing and returns the same list otherwise. *)
Theorem validation_order_is_irrelevant fr :
  check_integrity (reverse SetValue_validators) fr =
  check_integrity SetValue_validators fr.
Proof.
  rewrite run_validation.
  unfold SetValue_validators, reverse, check_integrity, error, mbind, Py_bind; simpl.
  rewrite run_check_value.
  destruct (descriptors _ !! _) as [d|] eqn:Hd; simpl; [|done].
  destruct (is_valid _ _); unfold mret, Py_ret; simpl;
    by rewrite run_check_attribute, Hd.
Qed.

End Validation.

Lemma validation_never_reports_missing_attribute_witness :
  let fr := mkFrame Demo.set_x_bad Demo.store in
  errors_of NOT_A_PROPERTY_OF
    [mkIssue INVALID_PROPERTY_VALUE "'bad' is not a valid value for Target(id=1).x"] = [] /\
  exists d, lookup_attr fr = Return (Some d).
Proof.
  intros fr.
  destruct (validation_never_reports_missing_attribute fr
    [mkIssue INVALID_PROPERTY_VALUE "'bad' is not a valid value for Target(id=1).x"] fr)
    as (Hnone & _ & Hd & _); [reflexivity|].
  split; [exact Hnone | exact Hd].
Defined.

(** ** The order of binary64 numbers *)

Module FloatOrder.
Import PrimFloat SpecFloat FloatOps FloatAxioms.

Ltac compare_cases :=
  repeat match goal with
  | H : context [Pos.compare_cont Eq ?a ?b] |- _ =>
      change (Pos.compare_cont Eq a b) with (Pos.compare a b) in H
  | |- context [Pos.compare_cont Eq ?a ?b] =>
      change (Pos.compare_cont Eq a b) with (Pos.compare a b)
  end;
  repeat match goal with
  | H : context [Z.compare ?a ?b] |- _ => destruct (Z.compare_spec a b); simpl in H
  | |- context [Z.compare ?a ?b] => destruct (Z.compare_spec a b); simpl
  | H : context [Pos.compare ?a ?b] |- _ => destruct (Pos.compare_spec a b); simpl in H
  | |- context [Pos.compare ?a ?b] => destruct (Pos.compare_spec a b); simpl
  end;
  try congruence; try lia.

Lemma SFcompare_Lt_trans a b c :
  SFcompare a b = Some Lt -> SFcompare b c = Some Lt -> SFcompare a c = Some Lt.
Proof.
  destruct a as [[]|[]| |[] ma ea], b as [[]|[]| |[] mb eb], c as [[]|[]| |[] mc ec];
    simpl; try congruence; intros Hab Hbc; compare_cases.
Qed.

Lemma SFcompare_antisym a b :
  SFcompare b a = CompOpp <$> SFcompare a b.
Proof.
  destruct a as [[]|[]| |[] ma ea], b as [[]|[]| |[] mb eb];
    simpl; try reflexivity; compare_cases.
Qed.

Lemma SFcompare_None a b :
  SFcompare a b = None <-> a = S754_nan \/ b = S754_nan.
Proof.
  destruct a as [[]|[]| |[] ma ea], b as [[]|[]| |[] mb eb]; simpl;
    split; try congruence; try tauto; intros [|]; congruence.
Qed.

Lemma is_nan_spec x : is_nan x = true <-> Prim2SF x = S754_nan.
Proof.
  unfold is_nan. rewrite eqb_spec. unfold SFeqb.
  destruct (Prim2SF x) as [[]|[]| |[] m e]; simpl; try (split; congruence).
  - change (Pos.compare_cont Eq m m) with (Pos.compare m m).
    rewrite Z.compare_refl, Pos.compare_refl. simpl. split; congruence.
  - change (Pos.compare_cont Eq m m) with (Pos.compare m m).
    rewrite Z.compare_refl, Pos.compare_refl. simpl. split; congruence.
Qed.

Lemma ltb_trans x y z : (x <? y)%float = true -> (y <? z)%float = true -> (x <? z)%float = true.
Proof.
  rewrite !ltb_spec. unfold SFltb.
  destruct (SFcompare (Prim2SF x) (Prim2SF y)) as [[]|] eqn:Hxy; try discriminate.
  destruct (SFcompare (Prim2SF y) (Prim2SF z)) as [[]|] eqn:Hyz; try discriminate.
  intros _ _. by rewrite (SFcompare_Lt_trans _ _ _ Hxy Hyz).
Qed.

Lemma leb_ltb_false x y : (y <=? x)%float = true -> (x <? y)%float = false.
Proof.
  rewrite leb_spec, ltb_spec. unfold SFleb, SFltb.
  rewrite (SFcompare_antisym (Prim2SF y) (Prim2SF x)).
  by destruct (SFcompare (Prim2SF y) (Prim2SF x)) as [[]|].
Qed.

Lemma ltb_false_leb x y :
  is_nan x = false -> is_nan y = false -> (x <? y)%float = false -> (y <=? x)%float = true.
Proof.
  intros Hx Hy. rewrite leb_spec, ltb_spec. unfold SFleb, SFltb.
  rewrite (SFcompare_antisym (Prim2SF x) (Prim2SF y)).
  destruct (SFcompare (Prim2SF x) (Prim2SF y)) as [[]|] eqn:Hc; simpl; try done.
  apply SFcompare_None in Hc as [Hn|Hn]; apply is_nan_spec in Hn; congruence.
Qed.

Lemma ltb_not_nan x y : (x <? y)%float = true -> is_nan x = false /\ is_nan y = false.
Proof.
  rewrite ltb_spec. unfold SFltb. intros H.
  split; apply not_true_is_false; intros Hn%is_nan_spec; rewrite Hn in H;
    simpl in H; try discriminate.
  by destruct (Prim2SF x).
Qed.

Lemma leb_not_nan x y : (x <=? y)%float = true -> is_nan x = false /\ is_nan y = false.
Proof.
  rewrite leb_spec. unfold SFleb. intros H.
  split; apply not_true_is_false; intros Hn%is_nan_spec; rewrite Hn in H;
    simpl in H; try discriminate.
  by destruct (Prim2SF x).
Qed.

Lemma nan_ltb x y : is_nan x = true -> (x <? y)%float = false /\ (y <=? x)%float = false.
Proof.
  intros Hn%is_nan_spec. rewrite ltb_spec, leb_spec. unfold SFltb, SFleb. rewrite Hn.
  simpl. by destruct (Prim2SF y).
Qed.
End FloatOrder.

(** ** The trail example: what the data preparation guarantees *)

Module TrailFacts.
Import PrimFloat Trail FloatOrder.

(** *** List comprehensions *)

Lemma comprehension_Forall2 {A B} (f : A -> Try B) (l : list A) (bs : list B) :
  comprehension f l = Ok bs <-> Forall2 (fun a b => f a = Ok b) l bs.
Proof.
  revert bs. induction l as [|a l IH]; intros bs; simpl.
  - split; [intros [= <-]; constructor | by inversion 1].
  - unfold mbind, Try_bind, mret, Try_ret.
    destruct (f a) as [b|e] eqn:Hfa.
    + destruct (comprehension f l) as [bs'|e] eqn:Hrest.
      * split.
        -- intros [= <-]. constructor; [done | by apply IH].
        -- inversion 1 as [|? b' ? bs'' Hb Hbs]; subst.
           apply IH in Hbs. congruence.
      * split; [done|]. inversion 1 as [|? b' ? bs'' Hb Hbs]; subst.
        by apply IH in Hbs.
    + split; [done|]. inversion 1; congruence.
Qed.

Lemma comprehension_total {A B} (f : A -> Try B) (g : A -> B) (l : list A) :
  Forall (fun a => f a = Ok (g a)) l -> comprehension f l = Ok (g <$> l).
Proof.
  intros H. apply comprehension_Forall2.
  induction H; simpl; constructor; done.
Qed.

Lemma length_drop_last {A} (l : list A) : length (drop_last l) = length l - 1.
Proof. unfold drop_last. rewrite length_take. lia. Qed.

Lemma drop_last_snoc {A} (l : list A) (x : A) : drop_last (l ++ [x]) = l.
Proof.
  unfold drop_last. rewrite length_app. simpl.
  replace (length l + 1 - 1) with (length l) by lia.
  by rewrite take_app_length.
Qed.



(** *** The distance column of [prep_data] *)

Section DistColumn.
Context {Coord : Type} (distance : Coord * Coord -> Coord * Coord -> float).



End DistColumn.

(** *** The patches of [altitude_profile] *)

Section Patches.
Context {A : Type} (lt : A -> A -> bool).

Lemma patches_xs_ok (X : list A) :
  exists quads,
    patches_xs X = Ok quads /\
    length quads = length X - 1 /\
    forall i a b, X !! i = Some a -> X !! (i + 1) = Some b ->
      quads !! i = Some [a; b; b; a].
Proof.
  destruct X as [|x0 X'] eqn:HX.
  { exists []. split_and!; [done | done | intros i a b Hi; by rewrite lookup_nil in Hi]. }
  rewrite <- HX.
  set (at_ := fun i => default x0 (X !! i)).
  exists ((fun i => [at_ i; at_ (i + 1); at_ (i + 1); at_ i]) <$> range (length (drop_last X))).
  split_and!.
  - apply comprehension_total, Forall_forall. intros i Hi.
    apply elem_of_seq in Hi as [_ Hi]. rewrite length_drop_last in Hi. simpl in Hi.
    unfold series_getitem, at_.
    destruct (lookup_lt_is_Some_2 X (i + 1)) as [b Hb]; [lia|].
    destruct (lookup_lt_is_Some_2 X i) as [a Ha]; [lia|].
    by rewrite Ha, Hb.
  - unfold range. by rewrite length_fmap, length_seq, length_drop_last.
  - intros i a b Ha Hb. unfold range, at_.
    rewrite list_lookup_fmap, lookup_seq_lt.
    + simpl. by rewrite Ha, Hb.
    + rewrite length_drop_last. apply lookup_lt_Some in Hb. lia.
Qed.

Lemma patches_ys_ok (y0 : A) (Y : list A) :
  exists quads,
    patches_ys y0 Y = Ok quads /\
    length quads = length Y - 1 /\
    forall i c d, Y !! i = Some d -> Y !! (i + 1) = Some c ->
      quads !! i = Some [y0; y0; c; d].
Proof.
  destruct Y as [|x0 Y'] eqn:HY.
  { exists []. split_and!; [done | done | intros i a b Hi; by rewrite lookup_nil in Hi]. }
  rewrite <- HY.
  set (at_ := fun i => default x0 (Y !! i)).
  exists ((fun i => [y0; y0; at_ (i + 1); at_ i]) <$> range (length (drop_last Y))).
  split_and!.
  - apply comprehension_total, Forall_forall. intros i Hi.
    apply elem_of_seq in Hi as [_ Hi]. rewrite length_drop_last in Hi. simpl in Hi.
    unfold series_getitem, at_.
    destruct (lookup_lt_is_Some_2 Y (i + 1)) as [b Hb]; [lia|].
    destruct (lookup_lt_is_Some_2 Y i) as [a Ha]; [lia|].
    by rewrite Ha, Hb.
  - unfold range. by rewrite length_fmap, length_seq, length_drop_last.
  - intros i c d Hd Hc. unfold range, at_.
    rewrite list_lookup_fmap, lookup_seq_lt.
    + simpl. by rewrite Hd, Hc.
    + rewrite length_drop_last. apply lookup_lt_Some in Hc. lia.
Qed.

(** [altitude_profile], lines 107 to 114.  On an empty altitude column
    [min] raises [ValueError].  Otherwise nothing raises (no index is out of
    range) and, for columns of one common length, the three columns of the
    patch source have the same number of entries, one per pair of
    consecutive rows; patch [i] spans [X[i]] to [X[i+1]] and rises from the
    minimum altitude to [Y[i]] and [Y[i+1]]. *)
Theorem patches_source_spec (X Y : list A) (colors : list (option string)) :
  length X = length Y ->
  length colors = length Y ->
  match py_min lt Y with
  | Fail e => Y = [] /\ patches_source lt X Y colors = Fail ValueError
  | Ok y0 =>
      exists p,
        patches_source lt X Y colors = Ok p /\
        length (xs p) = length Y - 1 /\
        length (ys p) = length Y - 1 /\
        length (color p) = length Y - 1 /\
        (forall i a b, X !! i = Some a -> X !! (i + 1) = Some b ->
           xs p !! i = Some [a; b; b; a]) /\
        (forall i c d, Y !! i = Some d -> Y !! (i + 1) = Some c ->
           ys p !! i = Some [y0; y0; c; d])
  end.
Proof.
  intros HX Hc. unfold patches_source.
  destruct (py_min lt Y) as [y0|e] eqn:Hmin.
  - destruct (patches_xs_ok X) as (qx & Hqx & Hlx & Hx).
    destruct (patches_ys_ok y0 Y) as (qy & Hqy & Hly & Hy).
    exists (mkPatches qx qy (drop_last colors)).
    unfold mbind, Try_bind, mret, Try_ret. rewrite Hqx, Hqy. simpl.
    split_and!; try done; [lia | rewrite length_drop_last; lia].
  - destruct Y; [|discriminate]. simpl in Hmin. by injection Hmin as <-.
Qed.

Lemma foldl_min_lower_bound (seen rest : list A) (m : A) :
  (forall a, lt a a = false) ->
  (forall a b c, lt a b = true -> lt b c = true -> lt a c = true) ->
  m ∈ seen -> (forall y, y ∈ seen -> lt y m = false) ->
  let r := foldl (fun m item => if lt item m then item else m) m rest in
  r ∈ seen ++ rest /\ forall y, y ∈ seen ++ rest -> lt y r = false.
Proof.
  intros Hirr Htr. revert seen m.
  induction rest as [|z rest IH]; intros seen m Hm Hlow; simpl.
  - by rewrite app_nil_r.
  - change (seen ++ z :: rest) with (seen ++ [z] ++ rest). rewrite (assoc_L (++)).
    apply IH.
    + clear IH. destruct (lt z m); set_solver.
    + intros y [Hy|Hy]%elem_of_app.
      * specialize (Hlow y Hy). destruct (lt z m) eqn:Hzm; [|done].
        destruct (lt y z) eqn:Hyz; [|done].
        by rewrite (Htr _ _ _ Hyz Hzm) in Hlow.
      * apply list_elem_of_singleton in Hy as ->.
        destruct (lt z m) eqn:Hzm; [apply Hirr | done].
Qed.

(** Python's [min]: the result is an element of the sequence, and no element
    is strictly below it, whenever [<] is irreflexive and transitive. *)
Lemma py_min_lower_bound (Y : list A) (y0 : A) :
  (forall a, lt a a = false) ->
  (forall a b c, lt a b = true -> lt b c = true -> lt a c = true) ->
  py_min lt Y = Ok y0 ->
  y0 ∈ Y /\ forall y, y ∈ Y -> lt y y0 = false.
Proof.
  intros Hirr Htr. destruct Y as [|x Y]; [done|]. simpl. intros [= <-].
  apply (foldl_min_lower_bound [x] Y x Hirr Htr); [set_solver|].
  intros y Hy. apply list_elem_of_singleton in Hy as ->. apply Hirr.
Qed.

(** [altitude_profile], lines 108 to 112.  Whenever [<] on the altitudes is
    irreflexive and transitive (as it is on integers and on binary64
    numbers), every patch stands on the lowest altitude of the profile: its
    two base corners are one and the same altitude of the column, and
    neither of its two top corners lies strictly below it. *)
Theorem patches_base_is_lowest (X Y : list A) (colors : list (option string))
    (p : Patches) (quad : list A) :
  (forall a, lt a a = false) ->
  (forall a b c, lt a b = true -> lt b c = true -> lt a c = true) ->
  patches_source lt X Y colors = Ok p ->
  quad ∈ ys p ->
  exists y0 c d,
    quad = [y0; y0; c; d] /\ y0 ∈ Y /\ c ∈ Y /\ d ∈ Y /\
    lt c y0 = false /\ lt d y0 = false.
Proof.
  intros Hirr Htr Hp Hquad. unfold patches_source in Hp.
  destruct (py_min lt Y) as [y0|e] eqn:Hmin; [|discriminate].
  destruct (py_min_lower_bound Y y0 Hirr Htr Hmin) as [Hy0 Hlow].
  destruct (patches_xs_ok X) as (qx & Hqx & _).
  destruct (patches_ys_ok y0 Y) as (qy & Hqy & Hly & Hy).
  unfold mbind, Try_bind, mret, Try_ret in Hp. rewrite Hqx, Hqy in Hp.
  injection Hp as <-. simpl in Hquad.
  apply list_elem_of_lookup in Hquad as [i Hi].
  assert (i < length qy) as Hlt by by eapply lookup_lt_Some.
  destruct (lookup_lt_is_Some_2 Y i) as [d Hd]; [lia|].
  destruct (lookup_lt_is_Some_2 Y (i + 1)) as [c Hc]; [lia|].
  rewrite (Hy i c d Hd Hc) in Hi. injection Hi as <-.
  exists y0, c, d.
  assert (c ∈ Y) by by eapply list_elem_of_lookup_2.
  assert (d ∈ Y) by by eapply list_elem_of_lookup_2.
  split_and!; auto.
Qed.

End Patches.

(** *** Slope classes and colours of [prep_data] *)


Lemma bin_slopes_entries (slope : list float) : bin_slopes slope = bin_entry <$> slope.
Proof.
  unfold bin_slopes, assign_where. rewrite <- !list_fmap_compose.
  apply list_fmap_ext. intros i x _. reflexivity.
Qed.

Lemma below_false (a b x : float) :
  (b <? a)%float = true -> (a <=? x)%float = true -> (x <? b)%float = false.
Proof.
  intros Hba Hax. destruct (x <? b)%float eqn:Hxb; [|done].
  pose proof (ltb_trans _ _ _ Hxb Hba) as Hxa.
  by rewrite (leb_ltb_false _ _ Hax) in Hxa.
Qed.

Lemma at_least (a b x : float) :
  is_nan a = false ->
  (x <? a)%float = false -> (x <? b)%float = true -> (a <=? x)%float = true.
Proof.
  intros Ha Hxa Hxb. apply ltb_false_leb; [|done|done].
  by apply ltb_not_nan in Hxb as [? _].
Qed.

Lemma bin_entry_cascade (x : float) :
  bin_entry x =
  if (x <? 4)%float then 0%float
  else if (x <? 6)%float then 1%float
  else if (x <? 10)%float then 2%float
  else if (x <? 15)%float then 3%float
  else if (15 <=? x)%float then 4%float
  else x.
Proof.
  unfold bin_entry.
  destruct (x <? 4)%float eqn:H4; [reflexivity|].
  destruct (x <? 6)%float eqn:H6.
  { rewrite (at_least 4 6 x) by done. reflexivity. }
  rewrite andb_false_r.
  destruct (x <? 10)%float eqn:H10.
  { rewrite (at_least 6 10 x) by done. reflexivity. }
  rewrite andb_false_r.
  destruct (x <? 15)%float eqn:H15.
  { rewrite (at_least 10 15 x) by done. reflexivity. }
  rewrite andb_false_r.
  by destruct (15 <=? x)%float.
Qed.

Lemma bin_entry_range (x : float) :
  is_nan x = false -> bin_entry x ∈ [0; 1; 2; 3; 4]%float.
Proof.
  intros Hnum. rewrite bin_entry_cascade.
  destruct (x <? 4)%float eqn:H4; [set_solver|].
  destruct (x <? 6)%float eqn:H6; [set_solver|].
  destruct (x <? 10)%float eqn:H10; [set_solver|].
  destruct (x <? 15)%float eqn:H15; [set_solver|].
  rewrite (ltb_false_leb x 15) by done. set_solver.
Qed.

(** [prep_data], lines 45 to 49.  The five in-place assignments put every
    entry into the class of its own slope: below 4 gives 0, from 4 up to 6
    gives 1, from 6 up to 10 gives 2, from 10 up to 15 gives 3, 15 and above
    (infinity included) gives 4; no class written by one assignment is
    changed by a later one.  An entry that is not a number stays as it is,
    and every other entry ends as one of the five classes. *)
Theorem bin_slopes_classes (slope : list float) (i : nat) (x : float) :
  slope !! i = Some x ->
  exists y,
    bin_slopes slope !! i = Some y /\
    length (bin_slopes slope) = length slope /\
    ((x <? 4)%float = true -> y = 0%float) /\
    (((4 <=? x) && (x <? 6))%float = true -> y = 1%float) /\
    (((6 <=? x) && (x <? 10))%float = true -> y = 2%float) /\
    (((10 <=? x) && (x <? 15))%float = true -> y = 3%float) /\
    ((15 <=? x)%float = true -> y = 4%float) /\
    (is_nan x = true -> y = x) /\
    (is_nan x = false -> y ∈ [0; 1; 2; 3; 4]%float).
Proof.
  intros Hx. exists (bin_entry x). rewrite bin_slopes_entries.
  split; [by rewrite list_lookup_fmap, Hx|].
  split; [by rewrite length_fmap|].
  rewrite bin_entry_cascade. split_and!.
  - by intros ->.
  - intros [H4 H6]%andb_true_iff.
    by rewrite (leb_ltb_false _ _ H4), H6.
  - intros [H6 H10]%andb_true_iff.
    by rewrite (below_false 6 4 x), (leb_ltb_false _ _ H6), H10.
  - intros [H10 H15]%andb_true_iff.
    by rewrite (below_false 10 4 x), (below_false 10 6 x), (leb_ltb_false _ _ H10), H15.
  - intros H15.
    by rewrite (below_false 15 4 x), (below_false 15 6 x), (below_false 15 10 x),
      (leb_ltb_false _ _ H15), H15.
  - intros Hnan.
    rewrite !(proj1 (nan_ltb x _ Hnan)), (proj2 (nan_ltb x 15 Hnan)). done.
  - rewrite <- bin_entry_cascade. apply bin_entry_range.
Qed.


Lemma assign_color_fmap (mask : float -> bool) (c : string)
    (old : float -> option string) (slope : list float) :
  assign_color mask c slope (old <$> slope) =
  (fun x => if mask x then Some c else old x) <$> slope.
Proof. unfold assign_color. induction slope as [|x slope IH]; csimpl; [done|]. by rewrite IH. Qed.

Lemma color_slopes_entries (slope : list float) :
  color_slopes slope = color_entry <$> slope.
Proof.
  unfold color_slopes.
  replace (replicate (length slope) (@None string))
    with ((fun _ : float => @None string) <$> slope)
    by (induction slope as [|x slope IH]; csimpl; [done | by rewrite IH]).
  by rewrite !assign_color_fmap.
Qed.

Lemma nan_eqb (x c : float) : is_nan x = true -> (x =? c)%float = false.
Proof.
  intros Hn%is_nan_spec. rewrite FloatAxioms.eqb_spec. unfold SpecFloat.SFeqb.
  by rewrite Hn.
Qed.

(** [prep_data], lines 45 to 58.  When no slope is a NaN and the filtered
    array holds only values of the classified array (as a median of a window
    does), every entry gets one of the five colour names; the column is one
    entry longer than the array and ends with [None]. *)
Theorem colors_all_named (slope filtered : list float) :
  (forall x, x ∈ slope -> is_nan x = false) ->
  (forall v, v ∈ filtered -> v ∈ bin_slopes slope) ->
  Forall (fun c => c ∈ [Some "green"; Some "yellow"; Some "pink"; Some "orange"; Some "red"])
    (color_slopes filtered) /\
  length (colors_column filtered) = S (length filtered) /\
  colors_column filtered !! length filtered = Some None.
Proof.
  intros Hnum Hsub. split_and!.
  - rewrite color_slopes_entries. apply Forall_fmap, Forall_forall.
    intros v Hv. apply Hsub in Hv. rewrite bin_slopes_entries in Hv.
    apply list_elem_of_fmap in Hv as (x & -> & Hx).
    pose proof (bin_entry_range x (Hnum x Hx)) as Hin. simpl.
    repeat (apply elem_of_cons in Hin as [->|Hin]; [vm_compute; repeat constructor|]).
    by apply elem_of_nil in Hin.
  - unfold colors_column. rewrite length_app, color_slopes_entries, length_fmap. simpl. lia.
  - unfold colors_column. rewrite lookup_app_r; rewrite color_slopes_entries, length_fmap; [|lia].
    by rewrite Nat.sub_diag.
Qed.

(** [prep_data], lines 52 to 58.  An entry of the filtered array that is a
    NaN gets no colour: its place in the column holds [None]. *)
Theorem nan_slope_has_no_color (filtered : list float) (i : nat) (v : float) :
  filtered !! i = Some v ->
  is_nan v = true ->
  colors_column filtered !! i = Some None.
Proof.
  intros Hi Hnan. unfold colors_column.
  rewrite lookup_app_l by (rewrite color_slopes_entries, length_fmap; by eapply lookup_lt_Some).
  rewrite color_slopes_entries, list_lookup_fmap, Hi. simpl.
  unfold color_entry. by rewrite !nan_eqb.
Qed.

(** [prep_data], line 58, with [altitude_profile], line 113.  The [None]
    that [prep_data] appends to make the colour column as long as the data
    frame is exactly what [altitude_profile] removes with [colors[:-1]]: the
    patches get the computed colours, one per patch, and the column has one
    entry per row. *)
Theorem colors_round_trip {A : Type} (lt : A -> A -> bool)
    (X Y : list A) (filtered : list float) :
  Y <> [] ->
  length X = length Y ->
  length filtered = length Y - 1 ->
  length (colors_column filtered) = length Y /\
  exists p,
    patches_source lt X Y (colors_column filtered) = Ok p /\
    color p = color_slopes filtered /\
    length (color p) = length (xs p) /\
    length (color p) = length (ys p).
Proof.
  intros HY HX Hf.
  assert (length Y <> 0) by (destruct Y; simpl; [done | lia]).
  split.
  { unfold colors_column. rewrite length_app, color_slopes_entries, length_fmap. simpl. lia. }
  unfold patches_source. destruct Y as [|y Y'] eqn:HeqY; [done|]. rewrite <- HeqY in *.
  replace (py_min lt Y) with
    (Ok (foldl (fun m item => if lt item m then item else m) y Y')) by by rewrite HeqY.
  set (y0 := foldl _ y Y').
  destruct (patches_xs_ok X) as (qx & Hqx & Hlx & _).
  destruct (patches_ys_ok y0 Y) as (qy & Hqy & Hly & _).
  exists (mkPatches qx qy (drop_last (colors_column filtered))).
  unfold mbind, Try_bind, mret, Try_ret. rewrite Hqx, Hqy. simpl.
  unfold colors_column. rewrite drop_last_snoc.
  rewrite color_slopes_entries, length_fmap. split_and!; [done | done | lia | lia].
Qed.

(** *** The properties on concrete data *)

Lemma bin_slopes_classes_witness :
  bin_slopes [0.5; 4; 7; 12; infinity; nan]%float !! 4 = Some 4%float.
Proof.
  destruct (bin_slopes_classes [0.5; 4; 7; 12; infinity; nan]%float 4 infinity)
    as (y & Hy & _ & _ & _ & _ & _ & H15 & _); [reflexivity|].
  rewrite Hy. f_equal. apply H15. reflexivity.
Defined.

Lemma colors_all_named_witness :
  length (colors_column [0; 1; 1; 4]%float) = 5 /\
  colors_column [0; 1; 1; 4]%float !! 4 = Some None.
Proof.
  destruct (colors_all_named [0.5; 4; 5; 20]%float [0; 1; 1; 4]%float)
    as (_ & Hlen & Hlast).
  - intros x Hx.
    repeat (apply elem_of_cons in Hx as [->|Hx]; [reflexivity|]).
    by apply elem_of_nil in Hx.
  - intros v Hv.
    repeat (apply elem_of_cons in Hv as [->|Hv]; [vm_compute; repeat constructor|]).
    by apply elem_of_nil in Hv.
  - split; [exact Hlen | exact Hlast].
Defined.

Lemma nan_slope_has_no_color_witness :
  colors_column [1; nan]%float !! 1 = Some None.
Proof. apply (nan_slope_has_no_color [1; nan]%float 1 nan); reflexivity. Defined.

Lemma patches_source_spec_witness :
  exists p,
    patches_source Z.ltb [0; 1; 3]%Z [5; 2; 7]%Z [Some "green"; Some "red"; None] = Ok p /\
    length (xs p) = 2 /\ length (ys p) = 2 /\ length (color p) = 2.
Proof.
  destruct (patches_source_spec Z.ltb [0; 1; 3]%Z [5; 2; 7]%Z [Some "green"; Some "red"; None])
    as (p & Hp & Hx & Hy & Hc & _); [reflexivity | reflexivity |].
  exists p. split_and!; [exact Hp | exact Hx | exact Hy | exact Hc].
Defined.

Lemma patches_base_is_lowest_witness :
  exists y0 c d : Z,
    [2; 2; 7; 2]%Z = [y0; y0; c; d] /\ (c <? y0)%Z = false /\ (d <? y0)%Z = false.
Proof.
  destruct (patches_base_is_lowest Z.ltb [0; 1; 3]%Z [5; 2; 7]%Z [Some "green"; Some "red"; None]
              (mkPatches [[0; 1; 1; 0]; [1; 3; 3; 1]]%Z [[2; 2; 2; 5]; [2; 2; 7; 2]]%Z
                 [Some "green"; Some "red"])
              [2; 2; 7; 2]%Z)
    as (y0 & c & d & Hq & _ & _ & _ & Hc & Hd).
  - intros a. lia.
  - intros a b c. lia.
  - reflexivity.
  - simpl. repeat constructor.
  - exists y0, c, d. split_and!; [exact Hq | exact Hc | exact Hd].
Defined.

Lemma colors_round_trip_witness :
  exists p,
    patches_source Z.ltb [0; 1; 3]%Z [5; 2; 7]%Z (colors_column [0; 4]%float) = Ok p /\
    color p = color_slopes [0; 4]%float.
Proof.
  destruct (colors_round_trip Z.ltb [0; 1; 3]%Z [5; 2; 7]%Z [0; 4]%float)
    as (_ & p & Hp & Hc & _); [discriminate | reflexivity | reflexivity |].
  exists p. split; [exact Hp | exact Hc].
Defined.

End TrailFacts.
